(** * The OCI indexer of the package registry ([oci/indexer.go])

    A shallow embedding of the indexer that reads packages from an OCI
    registry, with the properties of its three methods [Init], [Get] and
    [Close] and of the two descriptor builders [getMockPackage] and
    [getPackageFromTag].

    Go strings are byte sequences: they are [string] here, one [ascii] per
    byte.  A pointer that may be nil is an [option]; a slice is a [list]
    (nil and the empty slice are both [[]], the code only takes [len]).
    A method with a pointer receiver and a logger is a computation over
    the receiver and the logger's sink.  Where Go gives a field the name of
    its type ([Client], [Transport], [Reference], [Filter]) the field takes
    a trailing underscore. *)

From Stdlib Require Import String Ascii List Bool Arith.
Import ListNotations.
Open Scope string_scope.

(** ** Imported packages *)

(** Go's [strings], for a separator of one byte, the only kind the indexer
    uses. *)
Module strings.

(** [strings.Split(s, sep)]: the pieces of [s] between the occurrences of
    [sep], in order; always at least one piece. *)
Fixpoint Split (s : string) (sep : ascii) : list string :=
  match s with
  | EmptyString => [EmptyString]
  | String c s' =>
      if Ascii.eqb c sep then EmptyString :: Split s' sep
      else match Split s' sep with
           | [] => [String c EmptyString]
           | piece :: pieces => String c piece :: pieces
           end
  end.

(** [strings.Cut(s, sep)]: the text before and after the first [sep], and
    whether [sep] was found; without [sep] it is [(s, "", false)]. *)
Fixpoint Cut (s : string) (sep : ascii) : string * string * bool :=
  match s with
  | EmptyString => (EmptyString, EmptyString, false)
  | String c s' =>
      if Ascii.eqb c sep then (EmptyString, s', true)
      else let '(before, after, found) := Cut s' sep in
           (String c before, after, found)
  end.

(** [strings.Contains(s, sep)] for a separator of one byte. *)
Fixpoint Contains (s : string) (sep : ascii) : bool :=
  match s with
  | EmptyString => false
  | String c s' => Ascii.eqb c sep || Contains s' sep
  end.

End strings.

(** Go's [error] values as the indexer builds and receives them:
    [fmt.Errorf] without [%w] gives a plain message, with [%w] it wraps the
    cause. *)
Inductive error : Type :=
| errorString (msg : string)
| wrapError (msg : string) (cause : error).

Definition Error (e : error) : string :=
  match e with
  | errorString msg => msg
  | wrapError msg _ => msg
  end.

Module zap.

Inductive Level := DebugLevel | InfoLevel | WarnLevel.

Inductive Field :=
| String (key val : string)
| Int (key : string) (val : nat)
| Error (err : error).

Record Entry := { level : Level; message : string; fields : list Field }.

Definition Debug (msg : string) (fs : list Field) : Entry :=
  {| level := DebugLevel; message := msg; fields := fs |}.
Definition Info (msg : string) (fs : list Field) : Entry :=
  {| level := InfoLevel; message := msg; fields := fs |}.
Definition Warn (msg : string) (fs : list Field) : Entry :=
  {| level := WarnLevel; message := msg; fields := fs |}.

End zap.

Module tls.
Record Config := { InsecureSkipVerify : bool }.
End tls.

Module http.
Record Transport := { TLSClientConfig : option tls.Config }.
Record Client := { Transport_ : option Transport }.
End http.

Module auth.
Record Client := { Client_ : option http.Client }.
End auth.

Module registry.
Record Reference := { Registry : string; Repository : string; Reference_ : string }.
End registry.

(** [remote.Repository]: the parsed reference and the [Client] field, of
    interface type; the indexer stores a [*auth.Client] or a [*http.Client]
    in it, and nil is [None]. *)
Module remote.

Inductive Client :=
| httpClient (c : http.Client)
| authClient (c : auth.Client).

Record Repository := { Reference_ : registry.Reference; Client_ : option Client }.

Definition withClient (r : Repository) (c : option Client) : Repository :=
  {| Reference_ := Reference_ r; Client_ := c |}.

Section NewRepository.

(** [registry.ParseReference], the library's parser and validator of
    [registry/repository] references. *)
Variable ParseReference : string -> registry.Reference + error.

(** [remote.NewRepository(reference)]: the parsed reference with no client
    set, or the parser's error. *)
Definition NewRepository (reference : string) : option Repository * option error :=
  match ParseReference reference with
  | inl ref => (Some {| Reference_ := ref; Client_ := None |}, None)
  | inr err => (None, Some err)
  end.

End NewRepository.

End remote.

(** [packages.Package] with the fields the indexer fills in; every other
    field keeps its zero value. *)
Module packages.

Record BasePackage := {
  Name : string;
  Version : string;
  Title : option string;
  Description : string;
  Type_ : string;
  Categories : list string
}.

Record Package := { Base : BasePackage; BasePath : string }.

Definition Packages := list Package.

Record GetOptions (Filter : Type) := { Filter_ : option Filter }.

End packages.

(** ** The indexer *)

Module oci.

Record IndexerOptions := {
  Registry : string;
  Repository : string;
  Username : string;
  Password : string;
  Insecure : bool
}.

(** The [logger] field is a pointer to a shared [zap.Logger]: what is
    written through it lands in the sink of the [Machine] below. *)
Record Indexer := { opts : IndexerOptions; repo : option remote.Repository }.

Definition NewIndexer (o : IndexerOptions) : Indexer :=
  {| opts := o; repo := None |}.

(** *** Methods as computations

    A method runs on the receiver [self] and appends to the logger's
    [sink]; it returns, or panics as Go does on an index out of range or a
    nil dereference. *)

Record Machine := { self : Indexer; sink : list zap.Entry }.

Inductive Outcome (A : Type) : Type :=
| Returned (a : A) (m : Machine)
| Panicked (reason : string) (m : Machine).
Arguments Returned {A} a m.
Arguments Panicked {A} reason m.

Definition Method (A : Type) : Type := Machine -> Outcome A.

Definition ret {A} (a : A) : Method A := fun m => Returned a m.

Definition bind {A B} (c : Method A) (k : A -> Method B) : Method B :=
  fun m =>
    match c m with
    | Returned a m' => k a m'
    | Panicked reason m' => Panicked reason m'
    end.

Notation "x <- c ;; k" := (bind c (fun x => k))
  (at level 61, c at next level, right associativity).
Notation "c ;; k" := (bind c (fun _ => k))
  (at level 61, right associativity).

Definition panic {A} (reason : string) : Method A := fun m => Panicked reason m.

Definition receiver : Method Indexer := fun m => Returned (self m) m.

Definition logger (e : zap.Entry) : Method unit :=
  fun m => Returned tt {| self := self m; sink := (sink m ++ [e])%list |}.

Definition setRepo (r : remote.Repository) : Method unit :=
  fun m =>
    Returned tt {| self := {| opts := opts (self m); repo := Some r |};
                   sink := sink m |}.

(** [l[n]] on a slice. *)
Definition index (l : list string) (n : nat) : Method string :=
  match nth_error l n with
  | Some x => ret x
  | None => panic "index out of range"
  end.

Definition nonEmpty (s : string) : bool := negb (s =? "").

Definition colon : ascii := ":"%char.

(** *** Descriptors *)

(** getMockPackage returns a mock package for demonstration/testing
    purposes. *)
Definition getMockPackage : Method packages.Packages :=
  i <- receiver ;;
  let mockPackageName := "oci-mock-package" in
  let mockPackageTitle := "Mock OCI Package" in
  let mockPackage :=
    {| packages.Base :=
         {| packages.Name := mockPackageName;
            packages.Version := "1.0.0";
            packages.Title := Some mockPackageTitle;
            packages.Description :=
              "Mock package from OCI registry " ++ Registry (opts i) ++ "/"
                ++ Repository (opts i);
            packages.Type_ := "integration";
            packages.Categories := ["web"] |};
       packages.BasePath :=
         "oci://" ++ Registry (opts i) ++ "/" ++ Repository (opts i) ++ ":latest" |} in
  ret [mockPackage].

(** getPackageFromTag retrieves a package manifest from a specific tag:
    for now it creates a package based on tag information. *)
Definition getPackageFromTag (tag : string)
  : Method (option packages.Package * option error) :=
  i <- receiver ;;
  first <- index (strings.Split tag colon) 0 ;;
  let packageName := if first =? "" then tag else first in
  let parts := strings.Split tag colon in
  packageVersion <- (if (1 <? length parts)%nat then index parts 1 else ret "1.0.0") ;;
  let title := "Package " ++ packageName in
  let p :=
    {| packages.Base :=
         {| packages.Name := packageName;
            packages.Version := packageVersion;
            packages.Title := Some title;
            packages.Description :=
              "Package " ++ packageName ++ " from OCI registry "
                ++ Registry (opts i) ++ "/" ++ Repository (opts i);
            packages.Type_ := "integration";
            packages.Categories := ["observability"] |};
       packages.BasePath :=
         "oci://" ++ Registry (opts i) ++ "/" ++ Repository (opts i) ++ ":" ++ tag |} in
  ret (Some p, None).

(** *** Init, Get, Close *)

Section Methods.

Variable ParseReference : string -> registry.Reference + error.

(** [registry.Tags(ctx, i.repo)]: what the remote registry answers at the
    time of the call, the tags of the repository or an error. *)
Variable Tags : remote.Repository -> list string * option error.

Variable Filter : Type.

(** Init initializes the OCI indexer and sets up the ORAS client. *)
Definition Init : Method (option error) :=
  i <- receiver ;;
  logger (zap.Info "Initializing OCI indexer"
            [zap.String "registry" (Registry (opts i));
             zap.String "repository" (Repository (opts i))]) ;;
  if Registry (opts i) =? "" then
    ret (Some (errorString "OCI registry URL is required"))
  else if Repository (opts i) =? "" then
    ret (Some (errorString "OCI repository name is required"))
  else
    let repoRef := Registry (opts i) ++ "/" ++ Repository (opts i) in
    match remote.NewRepository ParseReference repoRef with
    | (_, Some err) =>
        ret (Some (wrapError
                     ("failed to create repository reference " ++ repoRef
                        ++ ": " ++ Error err) err))
    | (None, None) => panic "nil pointer dereference"
    | (Some repo, None) =>
        repo <- (if nonEmpty (Username (opts i)) && nonEmpty (Password (opts i)) then
                   logger (zap.Debug "Authentication configured for OCI registry" []) ;;
                   ret (remote.withClient repo
                          (Some (remote.authClient
                                   {| auth.Client_ := Some {| http.Transport_ := None |} |})))
                 else ret repo) ;;
        let repo :=
          if Insecure (opts i) then
            let repo :=
              match remote.Client_ repo with
              | None =>
                  remote.withClient repo
                    (Some (remote.httpClient {| http.Transport_ := None |}))
              | Some _ => repo
              end in
            match remote.Client_ repo with
            | Some (remote.httpClient _) =>
                remote.withClient repo
                  (Some (remote.httpClient
                           {| http.Transport_ :=
                                Some {| http.TLSClientConfig :=
                                          Some {| tls.InsecureSkipVerify := true |} |} |}))
            | _ => repo
            end
          else repo in
        setRepo repo ;;
        logger (zap.Info "OCI indexer initialized successfully" []) ;;
        ret None
    end.

(** The loop of [Get] over the tags, [allPackages] being the slice built
    so far. *)
Fixpoint rangeTags (tags : list string) (allPackages : packages.Packages)
  : Method packages.Packages :=
  match tags with
  | [] => ret allPackages
  | tag :: rest =>
      logger (zap.Debug "Processing tag" [zap.String "tag" tag]) ;;
      r <- getPackageFromTag tag ;;
      match r with
      | (_, Some err) =>
          logger (zap.Warn "Failed to get package from tag"
                    [zap.String "tag" tag; zap.Error err]) ;;
          rangeTags rest allPackages
      | (Some pkg, None) => rangeTags rest (allPackages ++ [pkg])%list
      | (None, None) => rangeTags rest allPackages
      end
  end.

(** Get retrieves packages from the OCI registry. *)
Definition Get (o : option (packages.GetOptions Filter))
  : Method (packages.Packages * option error) :=
  logger (zap.Debug "Getting packages from OCI registry" []) ;;
  i <- receiver ;;
  match repo i with
  | None => ret ([], Some (errorString "OCI indexer not initialized"))
  | Some r =>
      match Tags r with
      | (_, Some err) =>
          logger (zap.Warn "Failed to list tags from OCI registry, returning mock package"
                    [zap.Error err]) ;;
          mock <- getMockPackage ;;
          ret (mock, None)
      | (tags, None) =>
          allPackages <- rangeTags tags [] ;;
          if (length allPackages =? 0)%nat then
            logger (zap.Info "No packages found in OCI registry tags, returning mock package" []) ;;
            mock <- getMockPackage ;;
            ret (mock, None)
          else
            logger (zap.Info "Retrieved packages from OCI registry"
                      [zap.Int "count" (length allPackages)]) ;;
            ret (allPackages, None)
      end
  end.

(** Close closes the OCI indexer and cleans up resources. *)
Definition Close : Method (option error) :=
  logger (zap.Debug "Closing OCI indexer" []) ;;
  ret None.

End Methods.

End oci.

(** ** Reading the results of a method *)

Import oci.

Definition value {A} (o : oci.Outcome A) : option A :=
  match o with
  | oci.Returned a _ => Some a
  | oci.Panicked _ _ => None
  end.

Definition after {A} (o : oci.Outcome A) : oci.Machine :=
  match o with
  | oci.Returned _ m => m
  | oci.Panicked _ m => m
  end.

(** The name, version and base path of a descriptor. *)
Definition identity (p : packages.Package) : string * string * string :=
  (packages.Name (packages.Base p), packages.Version (packages.Base p),
   packages.BasePath p).

(** What [getPackageFromTag] gave, as name, version and base path. *)
Definition described (o : Outcome (option packages.Package * option error))
  : option (string * string * string) :=
  match value o with
  | Some (Some p, None) => Some (identity p)
  | _ => None
  end.

(** What [Get] gave: name, version and base path of each descriptor, and
    the error. *)
Definition listed (o : Outcome (packages.Packages * option error))
  : option (list (string * string * string) * option error) :=
  option_map (fun res => (map identity (fst res), snd res)) (value o).

(** ** Notions the properties are stated with *)

(** The fallback descriptor for the options [o]. *)
Definition fallback (o : IndexerOptions) : packages.Package :=
  {| packages.Base :=
       {| packages.Name := "oci-mock-package";
          packages.Version := "1.0.0";
          packages.Title := Some "Mock OCI Package";
          packages.Description :=
            "Mock package from OCI registry " ++ Registry o ++ "/" ++ Repository o;
          packages.Type_ := "integration";
          packages.Categories := ["web"] |};
     packages.BasePath := "oci://" ++ Registry o ++ "/" ++ Repository o ++ ":latest" |}.

(** [p] is what per-tag synthesis gives for [tag] on the receiver [i]. *)
Definition synthesizedFrom (i : Indexer) (tag : string) (p : packages.Package) : Prop :=
  forall log, getPackageFromTag tag {| self := i; sink := log |}
              = Returned (Some p, None) {| self := i; sink := log |}.

(** Whether the handle carries an authentication client. *)
Definition authenticates (r : remote.Repository) : bool :=
  match remote.Client_ r with
  | Some (remote.authClient _) => true
  | _ => false
  end.

(** Whether requests through the HTTP client [c] skip the verification of
    the server's certificate; without a transport of its own the client
    uses the default one, which verifies. *)
Definition insecureTransport (c : http.Client) : bool :=
  match http.Transport_ c with
  | Some t =>
      match http.TLSClientConfig t with
      | Some cfg => tls.InsecureSkipVerify cfg
      | None => false
      end
  | None => false
  end.

(** The same for the handle: through its HTTP client, or through the one
    inside its authentication client. *)
Definition skipsVerification (r : remote.Repository) : bool :=
  match remote.Client_ r with
  | Some (remote.httpClient c) => insecureTransport c
  | Some (remote.authClient a) =>
      match auth.Client_ a with
      | Some c => insecureTransport c
      | None => false
      end
  | None => false
  end.

(** The two states the code tells apart, by the repository handle. *)
Inductive State := Uninitialized | Ready.

Definition state (i : Indexer) : State :=
  match repo i with
  | None => Uninitialized
  | Some _ => Ready
  end.

(** The machines an indexer goes through once an [Init] has succeeded,
    whatever is called on it afterwards and whatever the registry answers. *)
Inductive Initialized (ParseReference : string -> registry.Reference + error)
  : Machine -> Prop :=
| Initialized_Init (m m' : Machine) :
    Init ParseReference m = Returned None m' -> Initialized ParseReference m'
| Initialized_Init_again (m m' : Machine) (e : option error) :
    Initialized ParseReference m ->
    Init ParseReference m = Returned e m' -> Initialized ParseReference m'
| Initialized_Get (m m' : Machine)
    (Tags : remote.Repository -> list string * option error) (Filter : Type)
    (o : option (packages.GetOptions Filter))
    (res : packages.Packages * option error) :
    Initialized ParseReference m ->
    Get Tags Filter o m = Returned res m' -> Initialized ParseReference m'
| Initialized_Close (m m' : Machine) (e : option error) :
    Initialized ParseReference m ->
    Close m = Returned e m' -> Initialized ParseReference m'.

Definition initializing (i : Indexer) : zap.Entry :=
  zap.Info "Initializing OCI indexer"
    [zap.String "registry" (Registry (opts i));
     zap.String "repository" (Repository (opts i))].

Definition repoRef (i : Indexer) : string :=
  Registry (opts i) ++ "/" ++ Repository (opts i).

(** ** Examples *)

(** A reference parser for the examples, in the manner of the library's:
    the reference is cut at its first slash, and the repository is made of
    lower-case letters, digits and the separators [.], [_], [-] and [/]. *)
Definition repositoryByte (c : ascii) : bool :=
  let n := nat_of_ascii c in
  ((97 <=? n) && (n <=? 122) || (48 <=? n) && (n <=? 57)
   || (n =? 46) || (n =? 95) || (n =? 45) || (n =? 47))%nat.

Fixpoint allBytes (p : ascii -> bool) (s : string) : bool :=
  match s with
  | EmptyString => true
  | String c s' => p c && allBytes p s'
  end.

Definition exampleParseReference (artifact : string) : registry.Reference + error :=
  let '(host, path, found) := strings.Cut artifact "/"%char in
  if negb found then
    inr (errorString "invalid reference: missing registry or repository")
  else if nonEmpty path && allBytes repositoryByte path then
    inl {| registry.Registry := host; registry.Repository := path;
           registry.Reference_ := "" |}
  else inr (errorString "invalid reference: invalid repository").

(** The options of the repository's own tests. *)
Definition testOptions : IndexerOptions :=
  {| Registry := "registry.example.com"; Repository := "packages";
     Username := ""; Password := ""; Insecure := false |}.

Definition testMachine : Machine := {| self := NewIndexer testOptions; sink := [] |}.

(** The indexer of the tests after its [Init]. *)
Definition testReady : Machine := after (Init exampleParseReference testMachine).

Definition unreachable (_ : remote.Repository) : list string * option error :=
  ([], Some (errorString "connection refused")).

Definition scenarioA (_ : remote.Repository) : list string * option error :=
  (["nginx:1.2.0"; "redis"], None).

Definition noTags (_ : remote.Repository) : list string * option error :=
  ([], None).

Definition emptyTag (_ : remote.Repository) : list string * option error :=
  ([""], None).

Definition upperCaseOptions : IndexerOptions :=
  {| Registry := "registry.example.com"; Repository := "My Packages";
     Username := ""; Password := ""; Insecure := false |}.

Definition insecureWithCredentials : IndexerOptions :=
  {| Registry := "registry.example.com"; Repository := "packages";
     Username := "myuser"; Password := "mypassword"; Insecure := true |}.

(** The indexer with credentials and the insecure flag after its [Init]. *)
Definition insecureReady : Machine :=
  after (Init exampleParseReference
           {| self := NewIndexer insecureWithCredentials; sink := [] |}).

Definition userWithoutPassword : IndexerOptions :=
  {| Registry := "registry.example.com"; Repository := "packages";
     Username := "myuser"; Password := ""; Insecure := false |}.

(** ** The initial implementation

    The first [indexer.go] of the package: an indexer without repository
    handle, whose [Init] only validates the configuration and whose [Get]
    always answers with the mock package.  Its methods do not change the
    receiver: they take the logger's sink and give it back. *)

Module initial.

Record Indexer := { opts : IndexerOptions }.

Definition NewIndexer (o : IndexerOptions) : Indexer := {| opts := o |}.

(** Init initializes the OCI indexer. *)
Definition Init (i : Indexer) (sink : list zap.Entry)
  : option error * list zap.Entry :=
  let sink :=
    (sink ++ [zap.Info "Initializing OCI indexer"
                [zap.String "registry" (Registry (opts i));
                 zap.String "repository" (Repository (opts i))]])%list in
  if Registry (opts i) =? "" then
    (Some (errorString "OCI registry URL is required"), sink)
  else if Repository (opts i) =? "" then
    (Some (errorString "OCI repository name is required"), sink)
  else
    (None, (sink ++ [zap.Info "OCI indexer initialized successfully" []])%list).

(** Get retrieves packages from the OCI registry. *)
Definition Get {Filter : Type} (i : Indexer)
           (o : option (packages.GetOptions Filter)) (sink : list zap.Entry)
  : (packages.Packages * option error) * list zap.Entry :=
  let sink := (sink ++ [zap.Debug "Getting packages from OCI registry" []])%list in
  let mockPackageName := "oci-mock-package" in
  let mockPackageTitle := "Mock OCI Package" in
  let mockPackage :=
    {| packages.Base :=
         {| packages.Name := mockPackageName;
            packages.Version := "1.0.0";
            packages.Title := Some mockPackageTitle;
            packages.Description :=
              "Mock package from OCI registry " ++ Registry (opts i) ++ "/"
                ++ Repository (opts i);
            packages.Type_ := "integration";
            packages.Categories := ["web"] |};
       packages.BasePath :=
         "oci://" ++ Registry (opts i) ++ "/" ++ Repository (opts i) ++ ":latest" |} in
  let allPackages := [mockPackage] in
  ((allPackages, None),
   (sink ++ [zap.Info "Retrieved packages from OCI registry"
               [zap.Int "count" (length allPackages)]])%list).

(** Close closes the OCI indexer and cleans up resources. *)
Definition Close (i : Indexer) (sink : list zap.Entry)
  : option error * list zap.Entry :=
  (None, (sink ++ [zap.Debug "Closing OCI indexer" []])%list).

End initial.

(** ** Further notions *)

Definition isWarn (e : zap.Entry) : bool :=
  match zap.level e with
  | zap.WarnLevel => true
  | _ => false
  end.

(** The entry [Get] logs for each tag. *)
Definition processing (tag : string) : zap.Entry :=
  zap.Debug "Processing tag" [zap.String "tag" tag].

(** Both credentials are given. *)
Definition bothCredentials (o : IndexerOptions) : bool :=
  nonEmpty (Username o) && nonEmpty (Password o).

(** The handle [Init] builds for the options [o] and the parsed reference
    [ref], case by case. *)
Definition configured (o : IndexerOptions) (ref : registry.Reference)
  : remote.Repository :=
  {| remote.Reference_ := ref;
     remote.Client_ :=
       if bothCredentials o then
         Some (remote.authClient
                 {| auth.Client_ := Some {| http.Transport_ := None |} |})
       else if Insecure o then
         Some (remote.httpClient
                 {| http.Transport_ :=
                      Some {| http.TLSClientConfig :=
                                Some {| tls.InsecureSkipVerify := true |} |} |})
       else None |}.

(** What [Init] logs on success. *)
Definition initialized (o : IndexerOptions) : list zap.Entry :=
  ((if bothCredentials o
    then [zap.Debug "Authentication configured for OCI registry" []]
    else [])
     ++ [zap.Info "OCI indexer initialized successfully" []])%list.

(** The options of the documentation's example for a local registry. *)
Definition insecureOptions : IndexerOptions :=
  {| Registry := "localhost:5000"; Repository := "packages";
     Username := ""; Password := ""; Insecure := true |}.

(** The options of the test of a missing registry. *)
Definition missingRegistry : IndexerOptions :=
  {| Registry := ""; Repository := "packages";
     Username := ""; Password := ""; Insecure := false |}.

(** ** Splitting and cutting *)

Example Split_name_version :
  strings.Split "nginx:1.2.0" colon = ["nginx"; "1.2.0"].
Proof. reflexivity. Qed.

Example Split_no_separator : strings.Split "redis" colon = ["redis"].
Proof. reflexivity. Qed.

Example Split_empty : strings.Split "" colon = [""].
Proof. reflexivity. Qed.

Example Split_trailing_separator : strings.Split "a:" colon = ["a"; ""].
Proof. reflexivity. Qed.

Example Split_three_pieces : strings.Split "a:b:c" colon = ["a"; "b"; "c"].
Proof. reflexivity. Qed.

Section Split.

Variable sep : ascii.

Lemma Split_Cut (s : string) :
  strings.Split s sep =
    let '(before, rest, found) := strings.Cut s sep in
    before :: (if found then strings.Split rest sep else []).
Proof.
  induction s as [|c s IH]; simpl.
  - reflexivity.
  - destruct (Ascii.eqb c sep).
    + reflexivity.
    + rewrite IH. destruct (strings.Cut s sep) as [[before rest] found].
      reflexivity.
Qed.

Lemma Cut_found (s : string) :
  snd (strings.Cut s sep) = strings.Contains s sep.
Proof.
  induction s as [|c s IH]; simpl.
  - reflexivity.
  - destruct (Ascii.eqb c sep); simpl.
    + reflexivity.
    + destruct (strings.Cut s sep) as [[before rest] found]. exact IH.
Qed.

(** Cutting a string that holds the separator: the two parts put the
    string together again around the first separator. *)
Lemma Cut_true (s before rest : string) :
  strings.Cut s sep = (before, rest, true) ->
  s = before ++ String sep rest /\ strings.Contains before sep = false.
Proof.
  revert before rest.
  induction s as [|c s IH]; simpl; intros before rest H.
  - discriminate.
  - destruct (Ascii.eqb c sep) eqn:E.
    + apply Ascii.eqb_eq in E. inversion H; subst. split; reflexivity.
    + destruct (strings.Cut s sep) as [[b r] f]. inversion H; subst.
      destruct (IH b rest eq_refl) as [-> Hb].
      split; [reflexivity | simpl; rewrite E; exact Hb].
Qed.

Lemma Cut_false (s before rest : string) :
  strings.Cut s sep = (before, rest, false) ->
  before = s /\ rest = "" /\ strings.Contains s sep = false.
Proof.
  revert before rest.
  induction s as [|c s IH]; simpl; intros before rest H.
  - inversion H; auto.
  - destruct (Ascii.eqb c sep) eqn:E.
    + discriminate.
    + destruct (strings.Cut s sep) as [[b r] f]. inversion H; subst.
      destruct (IH b rest eq_refl) as (-> & -> & Hs). auto.
Qed.

(** The cut is at the first separator: a string put together from a part
    without separator, the separator and a rest is cut into that part and
    that rest. *)
Lemma Cut_app (a b : string) :
  strings.Contains a sep = false ->
  strings.Cut (a ++ String sep b) sep = (a, b, true).
Proof.
  induction a as [|c a IH]; simpl; intros H.
  - rewrite Ascii.eqb_refl. reflexivity.
  - apply orb_false_iff in H. destruct H as [E Ha].
    rewrite E, (IH Ha). reflexivity.
Qed.

End Split.

(** ** Descriptors *)

Ltac step_method :=
  unfold bind, ret, receiver, logger, setRepo, panic, index; simpl.

Lemma Split_first (tag : string) :
  nth_error (strings.Split tag colon) 0 = Some (fst (fst (strings.Cut tag colon))).
Proof.
  rewrite Split_Cut. destruct (strings.Cut tag colon) as [[before rest] found].
  reflexivity.
Qed.

Lemma Split_second (tag : string) :
  (if (1 <? length (strings.Split tag colon))%nat
   then index (strings.Split tag colon) 1 else ret "1.0.0") =
  ret (let '(_, rest, found) := strings.Cut tag colon in
       if found then fst (fst (strings.Cut rest colon)) else "1.0.0").
Proof.
  rewrite Split_Cut. destruct (strings.Cut tag colon) as [[before rest] found].
  destruct found; [|reflexivity].
  rewrite Split_Cut. destruct (strings.Cut rest colon) as [[v rest'] found'].
  simpl. destruct found'; [|reflexivity].
  rewrite Split_Cut. destruct (strings.Cut rest' colon) as [[v' rest''] found''].
  reflexivity.
Qed.

(** [getPackageFromTag] in closed form: it returns a descriptor and no
    error for every tag, and leaves the receiver and the log alone. *)
Lemma getPackageFromTag_returns (tag : string) (m : Machine) :
  getPackageFromTag tag m =
    Returned
      (Some
         (let '(before, rest, found) := strings.Cut tag colon in
          let packageName := if before =? "" then tag else before in
          {| packages.Base :=
               {| packages.Name := packageName;
                  packages.Version :=
                    if found then fst (fst (strings.Cut rest colon)) else "1.0.0";
                  packages.Title := Some ("Package " ++ packageName);
                  packages.Description :=
                    "Package " ++ packageName ++ " from OCI registry "
                      ++ Registry (opts (self m)) ++ "/" ++ Repository (opts (self m));
                  packages.Type_ := "integration";
                  packages.Categories := ["observability"] |};
             packages.BasePath :=
               "oci://" ++ Registry (opts (self m)) ++ "/"
                 ++ Repository (opts (self m)) ++ ":" ++ tag |}),
       None) m.
Proof.
  unfold getPackageFromTag.
  unfold bind at 1. unfold receiver at 1.
  unfold bind at 1. unfold index at 1. rewrite Split_first. unfold ret at 1.
  rewrite Split_second. unfold bind, ret.
  destruct (strings.Cut tag colon) as [[before rest] found]. reflexivity.
Qed.

Lemma getMockPackage_returns (m : Machine) :
  getMockPackage m = Returned [fallback (opts (self m))] m.
Proof. reflexivity. Qed.

Lemma synthesizedFrom_functional (i : Indexer) (tags : list string) :
  forall pkgs pkgs' : packages.Packages,
    Forall2 (synthesizedFrom i) tags pkgs ->
    Forall2 (synthesizedFrom i) tags pkgs' ->
    pkgs = pkgs'.
Proof.
  induction tags as [|tag rest IH]; intros pkgs pkgs' H H'.
  - inversion H; inversion H'; reflexivity.
  - inversion H as [|? p ? ps Hp Hps]; subst.
    inversion H' as [|? p' ? ps' Hp' Hps']; subst.
    specialize (Hp []). rewrite (Hp' []) in Hp.
    injection Hp as ->. f_equal. apply IH; assumption.
Qed.

Lemma nonEmpty_true (s : string) : nonEmpty s = true <-> s <> "".
Proof.
  unfold nonEmpty. rewrite negb_true_iff. apply String.eqb_neq.
Qed.

Lemma nonEmpty_false (s : string) : nonEmpty s = false <-> s = "".
Proof.
  unfold nonEmpty. rewrite negb_false_iff. apply String.eqb_eq.
Qed.

(** ** Get *)

Lemma rangeTags_returns (tags : list string) :
  forall (allPackages : packages.Packages) (m : Machine),
  exists (pkgs : packages.Packages) (log : list zap.Entry),
    rangeTags tags allPackages m
      = Returned (allPackages ++ pkgs)%list {| self := self m; sink := log |} /\
    Forall2 (synthesizedFrom (self m)) tags pkgs.
Proof.
  induction tags as [|tag rest IH]; intros allPackages m.
  - exists [], (sink m). split; [|constructor].
    simpl. unfold ret. rewrite app_nil_r. destruct m; reflexivity.
  - simpl. unfold bind at 1. unfold logger at 1.
    unfold bind at 1. rewrite getPackageFromTag_returns.
    match goal with
    | |- context [rangeTags rest (allPackages ++ [?p])%list ?m1] =>
        destruct (IH (allPackages ++ [p])%list m1) as (pkgs & log & Hrun & Hall);
        exists (p :: pkgs), log
    end.
    split.
    + rewrite Hrun. simpl. rewrite <- app_assoc. reflexivity.
    + constructor; [|exact Hall].
      intros log'. rewrite getPackageFromTag_returns. reflexivity.
Qed.

Lemma Forall2_same_length {A B} (R : A -> B -> Prop) (l : list A) (l' : list B) :
  Forall2 R l l' -> length l = length l'.
Proof. induction 1; simpl; congruence. Qed.

Section GetProperties.

Variable Tags : remote.Repository -> list string * option error.
Variable Filter : Type.
Variable o : option (packages.GetOptions Filter).

(** Without a repository handle [Get] gives the error and nothing else. *)
Lemma Get_not_initialized (m : Machine) :
  repo (self m) = None ->
  Get Tags Filter o m =
    Returned ([], Some (errorString "OCI indexer not initialized"))
      {| self := self m;
         sink := (sink m ++ [zap.Debug "Getting packages from OCI registry" []])%list |}.
Proof.
  intros H. unfold Get. step_method. rewrite H. reflexivity.
Qed.

(** A failed enumeration is answered by the fallback. *)
Lemma Get_tags_failed (m : Machine) (r : remote.Repository)
      (tags : list string) (err : error) :
  repo (self m) = Some r -> Tags r = (tags, Some err) ->
  Get Tags Filter o m =
    Returned ([fallback (opts (self m))], None)
      {| self := self m;
         sink := ((sink m ++ [zap.Debug "Getting packages from OCI registry" []])
                    ++ [zap.Warn "Failed to list tags from OCI registry, returning mock package"
                          [zap.Error err]])%list |}.
Proof.
  intros H HT. unfold Get. step_method. rewrite H, HT. reflexivity.
Qed.

(** A successful enumeration: one descriptor per tag, in order, and the
    fallback when there is no tag. *)
Lemma Get_tags_listed (m : Machine) (r : remote.Repository) (tags : list string) :
  repo (self m) = Some r -> Tags r = (tags, None) ->
  exists (pkgs : packages.Packages) (log : list zap.Entry),
    Forall2 (synthesizedFrom (self m)) tags pkgs /\
    Get Tags Filter o m =
      Returned (match pkgs with
                | [] => [fallback (opts (self m))]
                | _ :: _ => pkgs
                end, None)
        {| self := self m; sink := log |}.
Proof.
  intros H HT. unfold Get. unfold bind at 1. unfold logger at 1.
  unfold bind at 1. unfold receiver at 1. cbn [self]. rewrite H, HT.
  unfold bind at 1.
  match goal with
  | |- context [rangeTags tags [] ?m1] =>
      destruct (rangeTags_returns tags [] m1) as (pkgs & log & Hrun & Hall)
  end.
  rewrite Hrun. cbn [self app] in *.
  destruct pkgs as [|p pkgs]; cbn [length Nat.eqb].
  - exists [], (log ++ [zap.Info "No packages found in OCI registry tags, returning mock package" []])%list.
    split; [exact Hall | reflexivity].
  - eexists (p :: pkgs), _. split; [exact Hall | reflexivity].
Qed.

End GetProperties.

(** What [Get] returns depends on the receiver only, not on the log. *)
Lemma Get_value_receiver
      (Tags : remote.Repository -> list string * option error) (Filter : Type)
      (o : option (packages.GetOptions Filter)) (m m' : Machine) :
  self m = self m' ->
  value (Get Tags Filter o m) = value (Get Tags Filter o m').
Proof.
  intros Hself.
  destruct (repo (self m)) as [r|] eqn:Hrepo.
  - assert (Hrepo' : repo (self m') = Some r) by (rewrite <- Hself; exact Hrepo).
    destruct (Tags r) as [tags [err|]] eqn:HT.
    + rewrite (Get_tags_failed Tags Filter o m r tags err Hrepo HT).
      rewrite (Get_tags_failed Tags Filter o m' r tags err Hrepo' HT).
      simpl. rewrite Hself. reflexivity.
    + destruct (Get_tags_listed Tags Filter o m r tags Hrepo HT)
        as (pkgs & log & Hall & ->).
      destruct (Get_tags_listed Tags Filter o m' r tags Hrepo' HT)
        as (pkgs' & log' & Hall' & ->).
      rewrite Hself in Hall.
      rewrite (synthesizedFrom_functional _ _ _ _ Hall Hall').
      simpl. rewrite Hself. reflexivity.
  - assert (Hrepo' : repo (self m') = None) by (rewrite <- Hself; exact Hrepo).
    rewrite (Get_not_initialized Tags Filter o m Hrepo).
    rewrite (Get_not_initialized Tags Filter o m' Hrepo'). reflexivity.
Qed.

(** [Get] always returns and leaves the receiver as it was; it gives the
    error exactly when there is no handle. *)
Lemma Get_outcome
      (Tags : remote.Repository -> list string * option error) (Filter : Type)
      (o : option (packages.GetOptions Filter)) (m : Machine) :
  exists (res : packages.Packages * option error) (m' : Machine),
    Get Tags Filter o m = Returned res m' /\ self m' = self m /\
    match state (self m) with
    | Uninitialized => res = ([], Some (errorString "OCI indexer not initialized"))
    | Ready => fst res <> [] /\ snd res = None
    end.
Proof.
  unfold state. destruct (repo (self m)) as [r|] eqn:Hrepo.
  - destruct (Tags r) as [tags [err|]] eqn:HT.
    + rewrite (Get_tags_failed Tags Filter o m r tags err Hrepo HT).
      eexists _, _. repeat split. discriminate.
    + destruct (Get_tags_listed Tags Filter o m r tags Hrepo HT)
        as (pkgs & log & _ & ->).
      eexists _, _. repeat split. destruct pkgs; discriminate.
  - rewrite (Get_not_initialized Tags Filter o m Hrepo).
    eexists _, _. repeat split.
Qed.

(** ** Init *)

Section InitProperties.

Variable ParseReference : string -> registry.Reference + error.

Lemma Init_missing_registry (m : Machine) :
  Registry (opts (self m)) = "" ->
  Init ParseReference m =
    Returned (Some (errorString "OCI registry URL is required"))
      {| self := self m; sink := (sink m ++ [initializing (self m)])%list |}.
Proof.
  intros H. unfold Init. step_method.
  apply String.eqb_eq in H. rewrite H. reflexivity.
Qed.

Lemma Init_missing_repository (m : Machine) :
  Registry (opts (self m)) <> "" -> Repository (opts (self m)) = "" ->
  Init ParseReference m =
    Returned (Some (errorString "OCI repository name is required"))
      {| self := self m; sink := (sink m ++ [initializing (self m)])%list |}.
Proof.
  intros Hreg H. unfold Init. step_method.
  apply String.eqb_neq in Hreg. apply String.eqb_eq in H.
  rewrite Hreg, H. reflexivity.
Qed.

Lemma Init_bad_reference (m : Machine) (err : error) :
  Registry (opts (self m)) <> "" -> Repository (opts (self m)) <> "" ->
  ParseReference (repoRef (self m)) = inr err ->
  Init ParseReference m =
    Returned (Some (wrapError
                      ("failed to create repository reference " ++ repoRef (self m)
                         ++ ": " ++ Error err) err))
      {| self := self m; sink := (sink m ++ [initializing (self m)])%list |}.
Proof.
  intros Hreg Hrepo HP. unfold Init. step_method.
  apply String.eqb_neq in Hreg, Hrepo. rewrite Hreg, Hrepo.
  unfold remote.NewRepository. unfold repoRef in HP. simpl in HP. rewrite HP. reflexivity.
Qed.

(** With a valid configuration [Init] stores a handle for the parsed
    reference; the handle authenticates when both credentials are given,
    and skips certificate verification when that is asked for and no
    authentication client stands in the way. *)
Lemma Init_configures (m : Machine) (ref : registry.Reference) :
  Registry (opts (self m)) <> "" -> Repository (opts (self m)) <> "" ->
  ParseReference (repoRef (self m)) = inl ref ->
  exists (r : remote.Repository) (log : list zap.Entry),
    Init ParseReference m =
      Returned None {| self := {| opts := opts (self m); repo := Some r |};
                       sink := log |} /\
    remote.Reference_ r = ref /\
    authenticates r =
      nonEmpty (Username (opts (self m))) && nonEmpty (Password (opts (self m))) /\
    skipsVerification r =
      Insecure (opts (self m))
      && negb (nonEmpty (Username (opts (self m)))
               && nonEmpty (Password (opts (self m)))).
Proof.
  intros Hreg Hrepo HP. unfold Init. step_method.
  apply String.eqb_neq in Hreg, Hrepo. rewrite Hreg, Hrepo.
  unfold remote.NewRepository. unfold repoRef in HP. simpl in HP. rewrite HP.
  destruct (nonEmpty (Username (opts (self m)))),
           (nonEmpty (Password (opts (self m)))),
           (Insecure (opts (self m)));
    simpl; eexists; eexists; repeat split; reflexivity.
Qed.

(** [Init] always returns; a failure leaves the receiver as it was, a
    success leaves it with a handle. *)
Lemma Init_outcome (m : Machine) :
  exists (e : option error) (m' : Machine),
    Init ParseReference m = Returned e m' /\
    match e with
    | Some _ => self m' = self m
    | None => state (self m') = Ready
    end.
Proof.
  destruct (string_dec (Registry (opts (self m))) "") as [Hreg|Hreg].
  { rewrite (Init_missing_registry m Hreg). eexists _, _. split; reflexivity. }
  destruct (string_dec (Repository (opts (self m))) "") as [Hrepo|Hrepo].
  { rewrite (Init_missing_repository m Hreg Hrepo).
    eexists _, _. split; reflexivity. }
  destruct (ParseReference (repoRef (self m))) as [ref|err] eqn:HP.
  - destruct (Init_configures m ref Hreg Hrepo HP) as (r & log & -> & _).
    eexists _, _. split; reflexivity.
  - rewrite (Init_bad_reference m err Hreg Hrepo HP).
    eexists _, _. split; reflexivity.
Qed.

End InitProperties.

(** ** Close and the life of an indexer *)

Lemma Close_returns (m : Machine) :
  Close m = Returned None
              {| self := self m;
                 sink := (sink m ++ [zap.Debug "Closing OCI indexer" []])%list |}.
Proof. reflexivity. Qed.

Lemma Initialized_Ready (ParseReference : string -> registry.Reference + error)
      (m : Machine) :
  Initialized ParseReference m -> state (self m) = Ready.
Proof.
  induction 1 as [m m' H | m m' e _ IH H | m m' Tags Filter o res _ IH H
                 | m m' e _ IH H].
  - destruct (Init_outcome ParseReference m) as (e & m1 & Hrun & Hst).
    rewrite Hrun in H. injection H as -> ->. exact Hst.
  - destruct (Init_outcome ParseReference m) as (e1 & m1 & Hrun & Hst).
    rewrite Hrun in H. injection H as -> ->.
    destruct e; [rewrite Hst; exact IH | exact Hst].
  - destruct (Get_outcome Tags Filter o m) as (res1 & m1 & Hrun & Hself & _).
    rewrite Hrun in H. injection H as _ ->. rewrite Hself. exact IH.
  - rewrite Close_returns in H. injection H as _ <-. exact IH.
Qed.

(** ** The claims *)

(** C1 (as amended): for every tag, per-tag synthesis returns a descriptor
    and no error; its name is the part of the tag before the first colon
    (the tag itself when there is no colon or that part is empty); its
    version is the part between the first and the second colon (all that
    follows the first colon when there is no second one), and 1.0.0 for a
    tag without colon; its title is the word Package and the name; its base
    path is oci://registry/repository:tag.  With registry.example.com,
    packages and the tags nginx:1.2.0 and redis, Get returns exactly the
    two descriptors of scenario A. *)
Theorem getPackageFromTag_descriptor :
  (forall (tag : string) (m : Machine),
     exists p : packages.Package,
       getPackageFromTag tag m = Returned (Some p, None) m /\
       (let '(before, rest, found) := strings.Cut tag colon in
        packages.Name (packages.Base p) = (if before =? "" then tag else before) /\
        packages.Version (packages.Base p) =
          (if found then fst (fst (strings.Cut rest colon)) else "1.0.0")) /\
       packages.Title (packages.Base p) =
         Some ("Package " ++ packages.Name (packages.Base p)) /\
       packages.BasePath p =
         "oci://" ++ Registry (opts (self m)) ++ "/" ++ Repository (opts (self m))
           ++ ":" ++ tag) /\
  (forall (user password : string) (insecure : bool) (r : remote.Repository)
          (log : list zap.Entry) (Filter : Type)
          (o : option (packages.GetOptions Filter)),
     option_map (fun res => (map identity (fst res), snd res))
       (value
          (Get (fun _ => (["nginx:1.2.0"; "redis"], None)) Filter o
             {| self :=
                  {| opts :=
                       {| Registry := "registry.example.com";
                          Repository := "packages";
                          Username := user; Password := password;
                          Insecure := insecure |};
                     repo := Some r |};
                sink := log |})) =
     Some ([("nginx", "1.2.0", "oci://registry.example.com/packages:nginx:1.2.0");
            ("redis", "1.0.0", "oci://registry.example.com/packages:redis")],
           None)).
Proof.
  split.
  - intros tag m. eexists. split; [apply getPackageFromTag_returns|].
    destruct (strings.Cut tag colon) as [[before rest] found].
    simpl. repeat split; reflexivity.
  - intros. reflexivity.
Qed.

(** C1 (as stated) fails on a tag with two colons: what follows the first
    colon of a:b:c is b:c, and the version of the descriptor is b. *)
Lemma getPackageFromTag_two_colons :
  strings.Cut "a:b:c" colon = ("a", "b:c", true) /\
  described (getPackageFromTag "a:b:c" {| self := NewIndexer testOptions; sink := [] |})
    = Some ("a", "b", "oci://registry.example.com/packages:a:b:c") /\
  "b" <> "b:c".
Proof.
  split; [reflexivity|]. split; [reflexivity|]. discriminate.
Qed.

(** C2: on an initialized indexer, when the enumeration of the tags fails
    with any error, Get returns no error and exactly one descriptor, the
    fallback: name oci-mock-package, version 1.0.0, type integration, base
    path oci://registry/repository:latest. *)
Theorem Get_enumeration_failure
        (Tags : remote.Repository -> list string * option error) (Filter : Type)
        (o : option (packages.GetOptions Filter)) (m : Machine)
        (r : remote.Repository) (tags : list string) (err : error) :
  repo (self m) = Some r ->
  Tags r = (tags, Some err) ->
  exists (p : packages.Package) (log : list zap.Entry),
    Get Tags Filter o m = Returned ([p], None) {| self := self m; sink := log |} /\
    getMockPackage m = Returned [p] m /\
    packages.Name (packages.Base p) = "oci-mock-package" /\
    packages.Version (packages.Base p) = "1.0.0" /\
    packages.Type_ (packages.Base p) = "integration" /\
    packages.BasePath p =
      "oci://" ++ Registry (opts (self m)) ++ "/" ++ Repository (opts (self m))
        ++ ":latest".
Proof.
  intros Hrepo HT.
  exists (fallback (opts (self m))). eexists. split.
  - apply (Get_tags_failed Tags Filter o m r tags err Hrepo HT).
  - repeat split; reflexivity.
Qed.

Lemma Get_enumeration_failure_witness :
  exists (p : packages.Package) (log : list zap.Entry),
    Get unreachable unit None testReady
      = Returned ([p], None) {| self := self testReady; sink := log |} /\
    getMockPackage testReady = Returned [p] testReady /\
    packages.Name (packages.Base p) = "oci-mock-package" /\
    packages.Version (packages.Base p) = "1.0.0" /\
    packages.Type_ (packages.Base p) = "integration" /\
    packages.BasePath p =
      "oci://" ++ Registry (opts (self testReady)) ++ "/"
        ++ Repository (opts (self testReady)) ++ ":latest".
Proof.
  eapply (Get_enumeration_failure unreachable unit None testReady); reflexivity.
Defined.

(** C3: once an Init has succeeded, whatever was called since and whatever
    the enumeration gives (an error, no tag, some tags), Get returns no
    error and at least one descriptor, and leaves the indexer as it was;
    when the enumeration gives no tag, the descriptors are the fallback. *)
Theorem Get_never_empty
        (ParseReference : string -> registry.Reference + error) (m : Machine)
        (Tags : remote.Repository -> list string * option error) (Filter : Type)
        (o : option (packages.GetOptions Filter)) :
  Initialized ParseReference m ->
  exists (pkgs : packages.Packages) (log : list zap.Entry),
    Get Tags Filter o m = Returned (pkgs, None) {| self := self m; sink := log |} /\
    pkgs <> [] /\
    (forall r, repo (self m) = Some r -> Tags r = ([], None) ->
               getMockPackage m = Returned pkgs m).
Proof.
  intros Hinit. apply Initialized_Ready in Hinit. unfold state in Hinit.
  destruct (repo (self m)) as [r|] eqn:Hrepo; [clear Hinit | discriminate].
  destruct (Tags r) as [tags [err|]] eqn:HT.
  - eexists _, _. split; [|split].
    + apply (Get_tags_failed Tags Filter o m r tags err Hrepo HT).
    + discriminate.
    + intros r' Hr' HT'. injection Hr' as <-. rewrite HT in HT'. discriminate.
  - destruct (Get_tags_listed Tags Filter o m r tags Hrepo HT)
      as (pkgs & log & Hall & Hrun).
    eexists _, log. split; [exact Hrun | split].
    + destruct pkgs; discriminate.
    + intros r' Hr' HT'. injection Hr' as <-. rewrite HT in HT'.
      injection HT' as ->. inversion Hall; subst. reflexivity.
Qed.

Lemma Get_never_empty_witness :
  exists (pkgs : packages.Packages) (log : list zap.Entry),
    Get noTags unit None testReady
      = Returned (pkgs, None) {| self := self testReady; sink := log |} /\
    pkgs <> [] /\
    (forall r, repo (self testReady) = Some r -> noTags r = ([], None) ->
               getMockPackage testReady = Returned pkgs testReady).
Proof.
  apply (Get_never_empty exampleParseReference testReady noTags unit None).
  apply (Initialized_Init exampleParseReference testMachine testReady).
  reflexivity.
Defined.

(** C4 (as amended): the indexer has two states, Uninitialized (no handle)
    and Ready (a handle).  Init always returns: on success the indexer is
    Ready, on failure it is as it was.  Get always returns and leaves the
    indexer as it was: in Uninitialized it gives the not-initialized error
    and no descriptor, in Ready it gives descriptors and no error.  Close
    is accepted in every state, returns no error, leaves the indexer as it
    was, also when called twice; Get after Close returns what Get returns
    without it. *)
Theorem Indexer_lifecycle
        (ParseReference : string -> registry.Reference + error)
        (Tags : remote.Repository -> list string * option error) (Filter : Type)
        (o : option (packages.GetOptions Filter)) (m : Machine) :
  (exists (e : option error) (m' : Machine),
     Init ParseReference m = Returned e m' /\
     match e with
     | Some _ => self m' = self m
     | None => state (self m') = Ready
     end) /\
  (exists (res : packages.Packages * option error) (m' : Machine),
     Get Tags Filter o m = Returned res m' /\ self m' = self m /\
     match state (self m) with
     | Uninitialized => res = ([], Some (errorString "OCI indexer not initialized"))
     | Ready => fst res <> [] /\ snd res = None
     end) /\
  (exists m' : Machine, Close m = Returned None m' /\ self m' = self m) /\
  (exists m' : Machine, (Close ;; Close) m = Returned None m' /\ self m' = self m) /\
  value ((Close ;; Get Tags Filter o) m) = value (Get Tags Filter o m).
Proof.
  split; [apply Init_outcome|].
  split; [apply Get_outcome|].
  split; [eexists; split; reflexivity|].
  split; [eexists; split; reflexivity|].
  unfold bind at 1. rewrite Close_returns.
  apply Get_value_receiver. reflexivity.
Qed.

(** C4 (as stated) fails: after Init and Close on the indexer of the tests,
    Get is still valid and returns the descriptors of the two tags. *)
Lemma Get_valid_after_Close :
  state (self (after ((Init exampleParseReference ;; Close) testMachine))) = Ready /\
  listed ((Init exampleParseReference ;; Close ;; Get scenarioA unit None) testMachine)
    = Some ([("nginx", "1.2.0", "oci://registry.example.com/packages:nginx:1.2.0");
             ("redis", "1.0.0", "oci://registry.example.com/packages:redis")],
            None).
Proof.
  split; reflexivity.
Qed.

(** C5 (as amended): Init fails if and only if the registry is empty, or
    the repository is empty, or the reference registry/repository is
    refused by the parser; with both non-empty and a reference that parses,
    Init succeeds and the indexer holds a handle for that reference. *)
Theorem Init_fails_iff
        (ParseReference : string -> registry.Reference + error) (m : Machine) :
  ((exists (e : error) (m' : Machine), Init ParseReference m = Returned (Some e) m')
   <->
   (Registry (opts (self m)) = "" \/ Repository (opts (self m)) = "" \/
    exists err : error,
      ParseReference (Registry (opts (self m)) ++ "/" ++ Repository (opts (self m)))
        = inr err)) /\
  (forall ref : registry.Reference,
     Registry (opts (self m)) <> "" -> Repository (opts (self m)) <> "" ->
     ParseReference (Registry (opts (self m)) ++ "/" ++ Repository (opts (self m)))
       = inl ref ->
     exists (m' : Machine) (r : remote.Repository),
       Init ParseReference m = Returned None m' /\
       repo (self m') = Some r /\ remote.Reference_ r = ref /\
       state (self m') = Ready).
Proof.
  split.
  - destruct (string_dec (Registry (opts (self m))) "") as [Hreg|Hreg].
    { split; [auto|]. intros _.
      rewrite (Init_missing_registry ParseReference m Hreg). eauto. }
    destruct (string_dec (Repository (opts (self m))) "") as [Hrepo|Hrepo].
    { split; [auto|]. intros _.
      rewrite (Init_missing_repository ParseReference m Hreg Hrepo). eauto. }
    destruct (ParseReference (repoRef (self m))) as [ref|err] eqn:HP.
    + destruct (Init_configures ParseReference m ref Hreg Hrepo HP)
        as (r & log & Hrun & _).
      split.
      * intros (e & m' & H). rewrite Hrun in H. discriminate.
      * intros [H|[H|(err & H)]]; try contradiction.
        unfold repoRef in HP. rewrite HP in H. discriminate.
    + split; [intros _; right; right; exists err; exact HP|]. intros _.
      rewrite (Init_bad_reference ParseReference m err Hreg Hrepo HP). eauto.
  - intros ref Hreg Hrepo HP.
    destruct (Init_configures ParseReference m ref Hreg Hrepo HP)
      as (r & log & Hrun & Href & _).
    eexists _, r. split; [exact Hrun|]. repeat split. exact Href.
Qed.

(** C5 (as stated) fails: with a registry and a repository that are both
    non-empty, Init fails when the reference does not parse. *)
Lemma Init_rejected_reference :
  Registry upperCaseOptions <> "" /\ Repository upperCaseOptions <> "" /\
  value (Init exampleParseReference {| self := NewIndexer upperCaseOptions; sink := [] |})
    = Some (Some (wrapError
                    "failed to create repository reference registry.example.com/My Packages: invalid reference: invalid repository"
                    (errorString "invalid reference: invalid repository"))).
Proof.
  split; [discriminate|]. split; [discriminate|]. reflexivity.
Qed.

(** C6 fails on the code: for the tag list that holds the empty string, Get
    on the initialized indexer of the tests returns a descriptor with an
    empty name, and a base path with nothing after its last colon. *)
Lemma Get_empty_tag_empty_name :
  listed (Get emptyTag unit None testReady)
    = Some ([("", "1.0.0", "oci://registry.example.com/packages:")], None).
Proof.
  reflexivity.
Qed.

(** C7 fails on the code: with a user name, a password and the insecure
    flag, Init succeeds and the handle holds an authentication client
    whose HTTP client has no transport of its own: certificates are
    verified. *)
Lemma Init_insecure_with_credentials :
  value (Init exampleParseReference
           {| self := NewIndexer insecureWithCredentials; sink := [] |}) = Some None /\
  option_map remote.Client_ (repo (self insecureReady))
    = Some (Some (remote.authClient
                    {| auth.Client_ := Some {| http.Transport_ := None |} |})) /\
  option_map skipsVerification (repo (self insecureReady)) = Some false.
Proof.
  repeat split.
Qed.

(** C8: when the enumeration succeeds with the tags t1..tn, n at least 1,
    Get returns no error and exactly n descriptors, the i-th being what
    getPackageFromTag gives for ti: the tags are taken in their order and
    none is skipped. *)
Theorem Get_one_descriptor_per_tag
        (Tags : remote.Repository -> list string * option error) (Filter : Type)
        (o : option (packages.GetOptions Filter)) (m : Machine)
        (r : remote.Repository) (tags : list string) :
  repo (self m) = Some r ->
  Tags r = (tags, None) ->
  tags <> [] ->
  exists (pkgs : packages.Packages) (log : list zap.Entry),
    Get Tags Filter o m = Returned (pkgs, None) {| self := self m; sink := log |} /\
    length pkgs = length tags /\
    Forall2 (synthesizedFrom (self m)) tags pkgs.
Proof.
  intros Hrepo HT Hne.
  destruct (Get_tags_listed Tags Filter o m r tags Hrepo HT)
    as (pkgs & log & Hall & Hrun).
  exists pkgs, log. split; [|split].
  - destruct pkgs as [|p pkgs]; [|exact Hrun].
    inversion Hall; subst. contradiction.
  - symmetry. apply (Forall2_same_length _ _ _ Hall).
  - exact Hall.
Qed.

Lemma Get_one_descriptor_per_tag_witness :
  exists (pkgs : packages.Packages) (log : list zap.Entry),
    Get scenarioA unit None testReady
      = Returned (pkgs, None) {| self := self testReady; sink := log |} /\
    length pkgs = length ["nginx:1.2.0"; "redis"] /\
    Forall2 (synthesizedFrom (self testReady)) ["nginx:1.2.0"; "redis"] pkgs.
Proof.
  eapply (Get_one_descriptor_per_tag scenarioA unit None testReady).
  - reflexivity.
  - reflexivity.
  - discriminate.
Defined.

(** C9: Get does not look at its options: for the same indexer, log and
    answer of the registry, two calls with any two option values, nil or
    not, with any filter, return the same descriptors and error and leave
    the same indexer and log. *)
Theorem Get_ignores_options
        (Tags : remote.Repository -> list string * option error)
        (Filter Filter' : Type)
        (o : option (packages.GetOptions Filter))
        (o' : option (packages.GetOptions Filter')) (m : Machine) :
  Get Tags Filter o m = Get Tags Filter' o' m.
Proof.
  unfold Get. reflexivity.
Qed.

(** C10: with a configuration that Init accepts, the handle carries an
    authentication client exactly when the user name and the password are
    both non-empty; when exactly one of them is given, Init succeeds all
    the same and the handle carries no authentication client. *)
Theorem Init_authentication
        (ParseReference : string -> registry.Reference + error) (m : Machine)
        (ref : registry.Reference) :
  Registry (opts (self m)) <> "" ->
  Repository (opts (self m)) <> "" ->
  ParseReference (Registry (opts (self m)) ++ "/" ++ Repository (opts (self m)))
    = inl ref ->
  exists (m' : Machine) (r : remote.Repository),
    Init ParseReference m = Returned None m' /\
    repo (self m') = Some r /\
    (authenticates r = true <->
     Username (opts (self m)) <> "" /\ Password (opts (self m)) <> "") /\
    ((Username (opts (self m)) = "" /\ Password (opts (self m)) <> "") \/
     (Username (opts (self m)) <> "" /\ Password (opts (self m)) = "") ->
     authenticates r = false).
Proof.
  intros Hreg Hrepo HP.
  destruct (Init_configures ParseReference m ref Hreg Hrepo HP)
    as (r & log & Hrun & _ & Hauth & _).
  eexists _, r. split; [exact Hrun|]. split; [reflexivity|].
  rewrite Hauth. split.
  - rewrite andb_true_iff, !nonEmpty_true. reflexivity.
  - intros [[Hu _]|[_ Hp]].
    + apply nonEmpty_false in Hu. rewrite Hu. reflexivity.
    + apply nonEmpty_false in Hp. rewrite Hp. apply andb_false_r.
Qed.

Lemma Init_authentication_witness :
  exists (m' : Machine) (r : remote.Repository),
    Init exampleParseReference {| self := NewIndexer userWithoutPassword; sink := [] |}
      = Returned None m' /\
    repo (self m') = Some r /\
    (authenticates r = true <->
     Username userWithoutPassword <> "" /\ Password userWithoutPassword <> "") /\
    ((Username userWithoutPassword = "" /\ Password userWithoutPassword <> "") \/
     (Username userWithoutPassword <> "" /\ Password userWithoutPassword = "") ->
     authenticates r = false).
Proof.
  eapply (Init_authentication exampleParseReference
            {| self := NewIndexer userWithoutPassword; sink := [] |}).
  - discriminate.
  - discriminate.
  - reflexivity.
Defined.

(** ** Further properties of the descriptors *)

Lemma Cut_before_no_sep (sep : ascii) (s : string) :
  strings.Contains (fst (fst (strings.Cut s sep))) sep = false.
Proof.
  destruct (strings.Cut s sep) as [[before rest] found] eqn:HC.
  destruct found.
  - apply Cut_true in HC. apply HC.
  - apply Cut_false in HC. destruct HC as (-> & _ & H). exact H.
Qed.

Lemma Cut_no_sep (sep : ascii) (s : string) :
  strings.Contains s sep = false -> strings.Cut s sep = (s, "", false).
Proof.
  intros H. destruct (strings.Cut s sep) as [[before rest] found] eqn:HC.
  destruct found.
  - pose proof (Cut_found sep s) as Hf. rewrite HC, H in Hf. discriminate.
  - apply Cut_false in HC. destruct HC as (-> & -> & _). reflexivity.
Qed.

Lemma Cut_before_empty (sep : ascii) (s : string) :
  fst (fst (strings.Cut s sep)) = "" <-> s = "" \/ exists s', s = String sep s'.
Proof.
  destruct s as [|c s]; simpl.
  - split; auto.
  - destruct (Ascii.eqb c sep) eqn:E.
    + apply Ascii.eqb_eq in E. subst. split; eauto.
    + destruct (strings.Cut s sep) as [[before rest] found]. simpl.
      split; [discriminate|]. intros [H|[s' H]]; [discriminate|].
      injection H as -> _. rewrite Ascii.eqb_refl in E. discriminate.
Qed.

Lemma append_same_prefix (a x y : string) : a ++ x = a ++ y -> x = y.
Proof.
  induction a as [|c a IH]; simpl; intros H.
  - exact H.
  - injection H as H. exact (IH H).
Qed.

(** X1: the name of the descriptor built from a tag is empty for the empty
    tag only. *)
Theorem getPackageFromTag_name_empty (tag : string) (m : Machine) :
  exists p : packages.Package,
    getPackageFromTag tag m = Returned (Some p, None) m /\
    (packages.Name (packages.Base p) = "" <-> tag = "").
Proof.
  eexists. split; [apply getPackageFromTag_returns|].
  destruct (strings.Cut tag colon) as [[before rest] found] eqn:HC. simpl.
  destruct (before =? "") eqn:E.
  - reflexivity.
  - apply String.eqb_neq in E. split; intros H; [contradiction|].
    subst tag. simpl in HC. injection HC as <- _ _. contradiction.
Qed.

(** X2: the version of the descriptor built from a tag holds no colon, and
    its name holds one only when the tag starts with a colon, the name then
    being the whole tag. *)
Theorem getPackageFromTag_colons (tag : string) (m : Machine) :
  exists p : packages.Package,
    getPackageFromTag tag m = Returned (Some p, None) m /\
    strings.Contains (packages.Version (packages.Base p)) colon = false /\
    (strings.Contains (packages.Name (packages.Base p)) colon = true ->
     packages.Name (packages.Base p) = tag /\ exists rest, tag = String colon rest).
Proof.
  eexists. split; [apply getPackageFromTag_returns|].
  pose proof (Cut_before_no_sep colon tag) as Hb.
  pose proof (Cut_before_empty colon tag) as He.
  destruct (strings.Cut tag colon) as [[before rest] found] eqn:HC.
  simpl in *. split.
  - destruct found; [apply Cut_before_no_sep | reflexivity].
  - destruct (before =? "") eqn:E.
    + apply String.eqb_eq in E. intros Hc. split; [reflexivity|].
      destruct (proj1 He E) as [->|H]; [discriminate | exact H].
    + rewrite Hb. discriminate.
Qed.

(** X3: the version of the descriptor built from a tag is empty exactly
    when the first colon of the tag is its last byte or is followed by
    another colon. *)
Theorem getPackageFromTag_version_empty (tag : string) (m : Machine) :
  exists p : packages.Package,
    getPackageFromTag tag m = Returned (Some p, None) m /\
    (packages.Version (packages.Base p) = "" <->
     exists name rest : string,
       strings.Contains name colon = false /\
       tag = name ++ String colon rest /\
       (rest = "" \/ exists rest', rest = String colon rest')).
Proof.
  eexists. split; [apply getPackageFromTag_returns|].
  destruct (strings.Cut tag colon) as [[before rest] found] eqn:HC. simpl.
  split.
  - intros H. destruct found; [|discriminate].
    apply Cut_true in HC. destruct HC as [Htag Hb].
    exists before, rest. repeat split; try assumption.
    apply Cut_before_empty. exact H.
  - intros (name & rest' & Hn & Htag & Hrest).
    subst tag. rewrite (Cut_app colon name rest' Hn) in HC.
    injection HC as <- <- <-. apply Cut_before_empty. exact Hrest.
Qed.

(** X4: on one indexer, descriptors built from different tags have
    different base paths. *)
Theorem getPackageFromTag_BasePath_injective (tag tag' : string) (m : Machine) :
  exists p p' : packages.Package,
    getPackageFromTag tag m = Returned (Some p, None) m /\
    getPackageFromTag tag' m = Returned (Some p', None) m /\
    (packages.BasePath p = packages.BasePath p' -> tag = tag').
Proof.
  eexists _, _. split; [apply getPackageFromTag_returns|].
  split; [apply getPackageFromTag_returns|].
  destruct (strings.Cut tag colon) as [[before rest] found].
  destruct (strings.Cut tag' colon) as [[before' rest'] found'].
  cbn [packages.BasePath]. intros H.
  repeat (apply append_same_prefix in H). exact H.
Qed.

(** X5: what follows the second colon of a tag is in neither the name nor
    the version: the tag name:version:rest gives the name and the version
    that the tag name:version gives, under another base path. *)
Theorem getPackageFromTag_second_colon (name version rest : string) (m : Machine) :
  name <> "" ->
  strings.Contains name colon = false ->
  strings.Contains version colon = false ->
  described (getPackageFromTag (name ++ ":" ++ version ++ ":" ++ rest) m)
    = Some (name, version,
            "oci://" ++ Registry (opts (self m)) ++ "/" ++ Repository (opts (self m))
              ++ ":" ++ name ++ ":" ++ version ++ ":" ++ rest) /\
  described (getPackageFromTag (name ++ ":" ++ version) m)
    = Some (name, version,
            "oci://" ++ Registry (opts (self m)) ++ "/" ++ Repository (opts (self m))
              ++ ":" ++ name ++ ":" ++ version).
Proof.
  intros Hne Hn Hv. apply String.eqb_neq in Hne.
  rewrite !getPackageFromTag_returns. unfold described, value, identity.
  change (":" ++ version ++ ":" ++ rest) with (String colon (version ++ String colon rest)).
  change (":" ++ version) with (String colon version).
  rewrite !(Cut_app colon name _ Hn), Hne.
  rewrite (Cut_app colon version rest Hv), (Cut_no_sep colon version Hv).
  split; reflexivity.
Qed.

Lemma getPackageFromTag_second_colon_witness :
  described (getPackageFromTag ("a" ++ ":" ++ "b" ++ ":" ++ "c") testReady)
    = Some ("a", "b",
            "oci://" ++ Registry (opts (self testReady)) ++ "/"
              ++ Repository (opts (self testReady))
              ++ ":" ++ "a" ++ ":" ++ "b" ++ ":" ++ "c") /\
  described (getPackageFromTag ("a" ++ ":" ++ "b") testReady)
    = Some ("a", "b",
            "oci://" ++ Registry (opts (self testReady)) ++ "/"
              ++ Repository (opts (self testReady))
              ++ ":" ++ "a" ++ ":" ++ "b").
Proof.
  apply (getPackageFromTag_second_colon "a" "b" "c" testReady).
  - discriminate.
  - reflexivity.
  - reflexivity.
Defined.

(** ** Further properties of Get *)

Lemma synthesizedFrom_fields (i : Indexer) (tag : string) (p : packages.Package) :
  synthesizedFrom i tag p ->
  packages.Type_ (packages.Base p) = "integration" /\
  packages.Title (packages.Base p)
    = Some ("Package " ++ packages.Name (packages.Base p)) /\
  packages.BasePath p =
    "oci://" ++ Registry (opts i) ++ "/" ++ Repository (opts i) ++ ":" ++ tag.
Proof.
  intros H. specialize (H []). rewrite getPackageFromTag_returns in H.
  injection H as <-.
  destruct (strings.Cut tag colon) as [[before rest] found].
  repeat split.
Qed.

Lemma synthesizedFrom_options (i i' : Indexer) (tag : string) (p : packages.Package) :
  Registry (opts i) = Registry (opts i') ->
  Repository (opts i) = Repository (opts i') ->
  synthesizedFrom i tag p -> synthesizedFrom i' tag p.
Proof.
  intros Hreg Hrepo H log. specialize (H []).
  rewrite getPackageFromTag_returns in *. injection H as <-.
  cbn [self]. rewrite Hreg, Hrepo. reflexivity.
Qed.

Lemma rangeTags_log (tags : list string) :
  forall (allPackages : packages.Packages) (m : Machine),
  exists pkgs : packages.Packages,
    rangeTags tags allPackages m
      = Returned pkgs
          {| self := self m; sink := (sink m ++ map processing tags)%list |}.
Proof.
  induction tags as [|tag rest IH]; intros allPackages m.
  - exists allPackages. simpl. unfold ret. rewrite app_nil_r.
    destruct m; reflexivity.
  - simpl. unfold bind at 1. unfold logger at 1.
    unfold bind at 1. rewrite getPackageFromTag_returns.
    match goal with
    | |- context [rangeTags rest ?acc ?m1] =>
        destruct (IH acc m1) as (pkgs & Hrun); exists pkgs
    end.
    rewrite Hrun. cbn [self sink]. rewrite <- app_assoc. reflexivity.
Qed.

Lemma processing_no_warning (tags : list string) :
  existsb isWarn (map processing tags) = false.
Proof.
  induction tags as [|tag rest IH]; simpl; [reflexivity | exact IH].
Qed.

(** X6: whatever the state of the indexer and the answer of the registry,
    every descriptor Get returns has the type integration, a title, and a
    base path that starts with oci://registry/repository and a colon. *)
Theorem Get_descriptors_shape
        (Tags : remote.Repository -> list string * option error) (Filter : Type)
        (o : option (packages.GetOptions Filter)) (m : Machine) :
  exists (pkgs : packages.Packages) (e : option error) (m' : Machine),
    Get Tags Filter o m = Returned (pkgs, e) m' /\
    Forall (fun p =>
              packages.Type_ (packages.Base p) = "integration" /\
              packages.Title (packages.Base p) <> None /\
              exists ref : string,
                packages.BasePath p =
                  "oci://" ++ Registry (opts (self m)) ++ "/"
                    ++ Repository (opts (self m)) ++ ":" ++ ref) pkgs.
Proof.
  assert (Hmock : Forall (fun p =>
              packages.Type_ (packages.Base p) = "integration" /\
              packages.Title (packages.Base p) <> None /\
              exists ref : string,
                packages.BasePath p =
                  "oci://" ++ Registry (opts (self m)) ++ "/"
                    ++ Repository (opts (self m)) ++ ":" ++ ref)
            [fallback (opts (self m))]).
  { constructor; [|constructor]. repeat split; [discriminate|].
    exists "latest". reflexivity. }
  destruct (repo (self m)) as [r|] eqn:Hrepo.
  - destruct (Tags r) as [tags [err|]] eqn:HT.
    + rewrite (Get_tags_failed Tags Filter o m r tags err Hrepo HT).
      eexists _, _, _. split; [reflexivity | exact Hmock].
    + destruct (Get_tags_listed Tags Filter o m r tags Hrepo HT)
        as (pkgs & log & Hall & ->).
      eexists _, _, _. split; [reflexivity|].
      destruct pkgs as [|p pkgs]; [exact Hmock|].
      clear Hmock HT. revert Hall. generalize (p :: pkgs). clear p pkgs.
      intros pkgs Hall. induction Hall as [|tag p tags pkgs Hp _ IH].
      * constructor.
      * constructor; [|exact IH].
        destruct (synthesizedFrom_fields _ _ _ Hp) as (Hty & Hti & Hbp).
        split; [exact Hty|]. split; [rewrite Hti; discriminate|].
        exists tag. exact Hbp.
  - rewrite (Get_not_initialized Tags Filter o m Hrepo).
    eexists _, _, _. split; [reflexivity | constructor].
Qed.

(** X7: the return value of Get does not tell a failed enumeration from an
    empty repository: both give the same descriptors and no error. *)
Theorem Get_failure_as_no_tags
        (Tags Tags' : remote.Repository -> list string * option error)
        (Filter : Type) (o : option (packages.GetOptions Filter)) (m : Machine)
        (r : remote.Repository) (tags : list string) (err : error) :
  repo (self m) = Some r ->
  Tags r = (tags, Some err) ->
  Tags' r = ([], None) ->
  value (Get Tags Filter o m) = value (Get Tags' Filter o m).
Proof.
  intros Hrepo HT HT'.
  rewrite (Get_tags_failed Tags Filter o m r tags err Hrepo HT).
  destruct (Get_tags_listed Tags' Filter o m r [] Hrepo HT')
    as (pkgs & log & Hall & ->).
  inversion Hall; subst. reflexivity.
Qed.

Lemma Get_failure_as_no_tags_witness :
  value (Get unreachable unit None testReady) = value (Get noTags unit None testReady).
Proof.
  eapply (Get_failure_as_no_tags unreachable noTags unit None testReady);
    reflexivity.
Defined.

(** X8: on an initialized indexer the descriptors of Get depend on the
    registry, the repository and the enumerated tags only: two indexers
    that agree on these return the same, whatever their credentials,
    insecure flags, handles and logs. *)
Theorem Get_depends_on_location
        (Tags Tags' : remote.Repository -> list string * option error)
        (Filter Filter' : Type)
        (o : option (packages.GetOptions Filter))
        (o' : option (packages.GetOptions Filter'))
        (m m' : Machine) (r r' : remote.Repository) :
  repo (self m) = Some r ->
  repo (self m') = Some r' ->
  Registry (opts (self m)) = Registry (opts (self m')) ->
  Repository (opts (self m)) = Repository (opts (self m')) ->
  Tags r = Tags' r' ->
  value (Get Tags Filter o m) = value (Get Tags' Filter' o' m').
Proof.
  intros Hrepo Hrepo' Hreg Hrep HT.
  assert (Hfb : fallback (opts (self m)) = fallback (opts (self m')))
    by (unfold fallback; rewrite Hreg, Hrep; reflexivity).
  destruct (Tags r) as [tags [err|]] eqn:HTr; symmetry in HT.
  - rewrite (Get_tags_failed Tags Filter o m r tags err Hrepo HTr).
    rewrite (Get_tags_failed Tags' Filter' o' m' r' tags err Hrepo' HT).
    simpl. rewrite Hfb. reflexivity.
  - destruct (Get_tags_listed Tags Filter o m r tags Hrepo HTr)
      as (pkgs & log & Hall & ->).
    destruct (Get_tags_listed Tags' Filter' o' m' r' tags Hrepo' HT)
      as (pkgs' & log' & Hall' & ->).
    assert (Hsame : pkgs = pkgs').
    { apply (synthesizedFrom_functional (self m') tags); [|exact Hall'].
      clear - Hall Hreg Hrep. induction Hall; constructor; auto.
      eapply synthesizedFrom_options; eauto. }
    subst pkgs'. simpl. rewrite Hfb. reflexivity.
Qed.

Lemma Get_depends_on_location_witness :
  value (Get scenarioA unit None testReady)
    = value (Get scenarioA unit None insecureReady).
Proof.
  eapply (Get_depends_on_location scenarioA scenarioA unit unit None None
            testReady insecureReady); reflexivity.
Defined.

(** X9: Get only appends to the log, and what it appends holds a warning
    exactly when the indexer is initialized and the enumeration of the tags
    failed; on an indexer that is not initialized it logs no warning. *)
Theorem Get_warns_on_failure_only
        (Tags : remote.Repository -> list string * option error) (Filter : Type)
        (o : option (packages.GetOptions Filter)) (m : Machine) :
  exists entries : list zap.Entry,
    sink (after (Get Tags Filter o m)) = (sink m ++ entries)%list /\
    (existsb isWarn entries = true <->
     exists (r : remote.Repository) (tags : list string) (err : error),
       repo (self m) = Some r /\ Tags r = (tags, Some err)).
Proof.
  destruct (repo (self m)) as [r|] eqn:Hrepo.
  - destruct (Tags r) as [tags [err|]] eqn:HT.
    + rewrite (Get_tags_failed Tags Filter o m r tags err Hrepo HT).
      eexists. split; [cbn [after sink]; rewrite <- app_assoc; reflexivity|].
      split; [intros _; exists r, tags, err; auto | reflexivity].
    + assert (Hno : ~ exists (r0 : remote.Repository) (tags0 : list string)
                           (err : error),
                  Some r = Some r0 /\ Tags r0 = (tags0, Some err)).
      { intros (r0 & tags0 & err & Hr & HT0). injection Hr as <-.
        rewrite HT in HT0. discriminate. }
      unfold Get. unfold bind at 1. unfold logger at 1.
      unfold bind at 1. unfold receiver at 1. cbn [self]. rewrite Hrepo, HT.
      unfold bind at 1.
      match goal with
      | |- context [rangeTags tags [] ?m1] =>
          destruct (rangeTags_log tags [] m1) as (pkgs & Hrun)
      end.
      rewrite Hrun. cbn [self sink].
      destruct (length pkgs =? 0)%nat.
      * eexists. split.
        { cbn. rewrite <- !app_assoc. reflexivity. }
        split; [|intros H; contradiction].
        cbn [app existsb isWarn]. rewrite existsb_app, processing_no_warning.
        discriminate.
      * eexists. split.
        { cbn. rewrite <- !app_assoc. reflexivity. }
        split; [|intros H; contradiction].
        cbn [app existsb isWarn]. rewrite existsb_app, processing_no_warning.
        discriminate.
  - rewrite (Get_not_initialized Tags Filter o m Hrepo).
    eexists. split; [reflexivity|].
    split; [discriminate|]. intros (r & _ & _ & H & _). discriminate.
Qed.

(** ** Further properties of Init *)

(** [Init] on a valid configuration, in closed form. *)
Lemma Init_handle (ParseReference : string -> registry.Reference + error)
      (m : Machine) (ref : registry.Reference) :
  Registry (opts (self m)) <> "" -> Repository (opts (self m)) <> "" ->
  ParseReference (repoRef (self m)) = inl ref ->
  Init ParseReference m =
    Returned None
      {| self := {| opts := opts (self m);
                    repo := Some (configured (opts (self m)) ref) |};
         sink := (sink m ++ initializing (self m) :: initialized (opts (self m)))%list |}.
Proof.
  intros Hreg Hrepo HP. unfold Init. step_method.
  apply String.eqb_neq in Hreg, Hrepo. rewrite Hreg, Hrepo.
  unfold remote.NewRepository. unfold repoRef in HP. simpl in HP. rewrite HP.
  unfold configured, initialized, bothCredentials.
  destruct (nonEmpty (Username (opts (self m)))),
           (nonEmpty (Password (opts (self m)))),
           (Insecure (opts (self m)));
    simpl; rewrite <- ?app_assoc; reflexivity.
Qed.

Lemma configured_skipsVerification (o : IndexerOptions) (ref : registry.Reference) :
  skipsVerification (configured o ref) = Insecure o && negb (bothCredentials o).
Proof.
  unfold configured, skipsVerification. simpl.
  destruct (bothCredentials o), (Insecure o); reflexivity.
Qed.

(** X10: the user name and the password themselves are never used: the
    result of Init, the handle it stores and what it logs are the same for
    two configurations that differ in their credentials only, as long as
    both or neither give a user name and a password. *)
Theorem Init_credentials_unused
        (ParseReference : string -> registry.Reference + error) (m m' : Machine) :
  sink m = sink m' ->
  repo (self m) = repo (self m') ->
  Registry (opts (self m)) = Registry (opts (self m')) ->
  Repository (opts (self m)) = Repository (opts (self m')) ->
  Insecure (opts (self m)) = Insecure (opts (self m')) ->
  bothCredentials (opts (self m)) = bothCredentials (opts (self m')) ->
  value (Init ParseReference m) = value (Init ParseReference m') /\
  repo (self (after (Init ParseReference m)))
    = repo (self (after (Init ParseReference m'))) /\
  sink (after (Init ParseReference m)) = sink (after (Init ParseReference m')).
Proof.
  intros Hsink Hhandle Hreg Hrep Hins Hboth.
  assert (Hlog : initializing (self m) = initializing (self m'))
    by (unfold initializing; rewrite Hreg, Hrep; reflexivity).
  assert (Href : repoRef (self m) = repoRef (self m'))
    by (unfold repoRef; rewrite Hreg, Hrep; reflexivity).
  destruct (string_dec (Registry (opts (self m))) "") as [Er|Er].
  { rewrite (Init_missing_registry ParseReference m Er).
    rewrite Hreg in Er. rewrite (Init_missing_registry ParseReference m' Er).
    cbn [value after self sink]. rewrite Hsink, Hlog. auto. }
  destruct (string_dec (Repository (opts (self m))) "") as [Ep|Ep].
  { rewrite (Init_missing_repository ParseReference m Er Ep).
    rewrite Hreg in Er. rewrite Hrep in Ep.
    rewrite (Init_missing_repository ParseReference m' Er Ep).
    cbn [value after self sink]. rewrite Hsink, Hlog. auto. }
  destruct (ParseReference (repoRef (self m))) as [ref|err] eqn:HP.
  - rewrite (Init_handle ParseReference m ref Er Ep HP).
    rewrite Href in HP. rewrite Hreg in Er. rewrite Hrep in Ep.
    rewrite (Init_handle ParseReference m' ref Er Ep HP).
    cbn [value after self sink repo].
    unfold configured, initialized. rewrite Hsink, Hlog, Hins, Hboth. auto.
  - rewrite (Init_bad_reference ParseReference m err Er Ep HP).
    rewrite Href in HP. rewrite Hreg in Er. rewrite Hrep in Ep.
    rewrite (Init_bad_reference ParseReference m' err Er Ep HP).
    cbn [value after self sink]. rewrite Hsink, Hlog, Href. auto.
Qed.

Lemma Init_credentials_unused_witness :
  value (Init exampleParseReference
           {| self := NewIndexer insecureWithCredentials; sink := [] |})
    = value (Init exampleParseReference
               {| self := NewIndexer
                            {| Registry := "registry.example.com";
                               Repository := "packages";
                               Username := "github-username";
                               Password := "github-token"; Insecure := true |};
                  sink := [] |}) /\
  repo (self (after (Init exampleParseReference
                       {| self := NewIndexer insecureWithCredentials; sink := [] |})))
    = repo (self (after (Init exampleParseReference
                           {| self := NewIndexer
                                        {| Registry := "registry.example.com";
                                           Repository := "packages";
                                           Username := "github-username";
                                           Password := "github-token";
                                           Insecure := true |};
                              sink := [] |}))) /\
  sink (after (Init exampleParseReference
                 {| self := NewIndexer insecureWithCredentials; sink := [] |}))
    = sink (after (Init exampleParseReference
                     {| self := NewIndexer
                                  {| Registry := "registry.example.com";
                                     Repository := "packages";
                                     Username := "github-username";
                                     Password := "github-token";
                                     Insecure := true |};
                        sink := [] |})).
Proof.
  apply (Init_credentials_unused exampleParseReference
           {| self := NewIndexer insecureWithCredentials; sink := [] |}
           {| self := NewIndexer
                        {| Registry := "registry.example.com";
                           Repository := "packages";
                           Username := "github-username";
                           Password := "github-token"; Insecure := true |};
              sink := [] |}); reflexivity.
Defined.

(** X11: Init is idempotent: a second Init right after the first returns
    what the first returned and leaves the indexer as the first left it. *)
Theorem Init_twice
        (ParseReference : string -> registry.Reference + error) (m : Machine) :
  value ((Init ParseReference ;; Init ParseReference) m)
    = value (Init ParseReference m) /\
  self (after ((Init ParseReference ;; Init ParseReference) m))
    = self (after (Init ParseReference m)).
Proof.
  unfold bind.
  destruct (string_dec (Registry (opts (self m))) "") as [Er|Er].
  { rewrite (Init_missing_registry ParseReference m Er).
    rewrite Init_missing_registry by exact Er. split; reflexivity. }
  destruct (string_dec (Repository (opts (self m))) "") as [Ep|Ep].
  { rewrite (Init_missing_repository ParseReference m Er Ep).
    rewrite Init_missing_repository by first [exact Er | exact Ep].
    split; reflexivity. }
  destruct (ParseReference (repoRef (self m))) as [ref|err] eqn:HP.
  - rewrite (Init_handle ParseReference m ref Er Ep HP).
    rewrite (Init_handle ParseReference _ ref)
      by first [exact Er | exact Ep | exact HP].
    split; reflexivity.
  - rewrite (Init_bad_reference ParseReference m err Er Ep HP).
    rewrite (Init_bad_reference ParseReference _ err)
      by first [exact Er | exact Ep | exact HP].
    split; reflexivity.
Qed.

(** X12: with a configuration that Init accepts, the stored handle skips
    the verification of certificates exactly when the insecure flag is set
    and the user name or the password is missing; without the flag and
    without both credentials the handle keeps the default client. *)
Theorem Init_insecure_transport
        (ParseReference : string -> registry.Reference + error) (m : Machine)
        (ref : registry.Reference) :
  Registry (opts (self m)) <> "" ->
  Repository (opts (self m)) <> "" ->
  ParseReference (Registry (opts (self m)) ++ "/" ++ Repository (opts (self m)))
    = inl ref ->
  exists (m' : Machine) (r : remote.Repository),
    Init ParseReference m = Returned None m' /\
    repo (self m') = Some r /\
    (skipsVerification r = true <->
     Insecure (opts (self m)) = true /\
     (Username (opts (self m)) = "" \/ Password (opts (self m)) = "")) /\
    (Insecure (opts (self m)) = false ->
     Username (opts (self m)) = "" \/ Password (opts (self m)) = "" ->
     remote.Client_ r = None).
Proof.
  intros Hreg Hrepo HP.
  assert (Hboth : bothCredentials (opts (self m)) = false <->
                  Username (opts (self m)) = "" \/ Password (opts (self m)) = "").
  { unfold bothCredentials. rewrite andb_false_iff, !nonEmpty_false. reflexivity. }
  eexists _, _. split; [apply (Init_handle ParseReference m ref Hreg Hrepo HP)|].
  split; [reflexivity|]. split.
  - rewrite configured_skipsVerification, andb_true_iff, negb_true_iff, Hboth.
    reflexivity.
  - intros Hins Hcred. apply Hboth in Hcred.
    unfold configured. cbn [remote.Client_]. rewrite Hcred, Hins. reflexivity.
Qed.

Lemma Init_insecure_transport_witness :
  exists (m' : Machine) (r : remote.Repository),
    Init exampleParseReference {| self := NewIndexer insecureOptions; sink := [] |}
      = Returned None m' /\
    repo (self m') = Some r /\
    (skipsVerification r = true <->
     Insecure insecureOptions = true /\
     (Username insecureOptions = "" \/ Password insecureOptions = "")) /\
    (Insecure insecureOptions = false ->
     Username insecureOptions = "" \/ Password insecureOptions = "" ->
     remote.Client_ r = None).
Proof.
  eapply (Init_insecure_transport exampleParseReference
            {| self := NewIndexer insecureOptions; sink := [] |}).
  - discriminate.
  - discriminate.
  - reflexivity.
Defined.

(** X13: the error of Init names its cause.  It is the registry error
    exactly when the registry is empty, also when the repository is empty
    too; the repository error exactly when only the repository is empty;
    and an error that wraps the parser's, with the reference in its
    message, exactly when both are given and the reference is refused. *)
Theorem Init_error_cause
        (ParseReference : string -> registry.Reference + error) (m : Machine) :
  (value (Init ParseReference m)
     = Some (Some (errorString "OCI registry URL is required"))
   <-> Registry (opts (self m)) = "") /\
  (value (Init ParseReference m)
     = Some (Some (errorString "OCI repository name is required"))
   <-> Registry (opts (self m)) <> "" /\ Repository (opts (self m)) = "") /\
  (forall (msg : string) (cause : error),
     value (Init ParseReference m) = Some (Some (wrapError msg cause))
     <-> Registry (opts (self m)) <> "" /\ Repository (opts (self m)) <> "" /\
         ParseReference (Registry (opts (self m)) ++ "/" ++ Repository (opts (self m)))
           = inr cause /\
         msg = "failed to create repository reference "
                 ++ (Registry (opts (self m)) ++ "/" ++ Repository (opts (self m)))
                 ++ ": " ++ Error cause).
Proof.
  destruct (string_dec (Registry (opts (self m))) "") as [Er|Er].
  { rewrite (Init_missing_registry ParseReference m Er). cbn [value].
    split; [tauto|]. split.
    - split; [intros H; inversion H | tauto].
    - intros msg cause. split; [intros H; inversion H | tauto]. }
  destruct (string_dec (Repository (opts (self m))) "") as [Ep|Ep].
  { rewrite (Init_missing_repository ParseReference m Er Ep). cbn [value].
    split; [split; [intros H; inversion H | tauto]|].
    split; [tauto|].
    intros msg cause. split; [intros H; inversion H | tauto]. }
  destruct (ParseReference (repoRef (self m))) as [ref|err] eqn:HP.
  - rewrite (Init_handle ParseReference m ref Er Ep HP). cbn [value].
    unfold repoRef in HP.
    split; [split; [discriminate | tauto]|].
    split; [split; [discriminate | tauto]|].
    intros msg cause. split; [discriminate|].
    intros (_ & _ & H & _). rewrite HP in H. discriminate.
  - rewrite (Init_bad_reference ParseReference m err Er Ep HP). cbn [value].
    unfold repoRef in *.
    split; [split; [discriminate | tauto]|].
    split; [split; [discriminate | tauto]|].
    intros msg cause. split.
    + intros H. injection H as <- <-. auto.
    + intros (_ & _ & H & ->). rewrite HP in H. injection H as <-. reflexivity.
Qed.

(** X14: a new indexer rejects Get, and still does after an Init that
    failed: Get then returns the not-initialized error and no descriptor. *)
Theorem Get_after_failed_Init
        (ParseReference : string -> registry.Reference + error)
        (Tags : remote.Repository -> list string * option error) (Filter : Type)
        (go : option (packages.GetOptions Filter))
        (o : IndexerOptions) (log : list zap.Entry) (e : error) (m' : Machine) :
  Init ParseReference {| self := NewIndexer o; sink := log |} = Returned (Some e) m' ->
  value (Get Tags Filter go {| self := NewIndexer o; sink := log |})
    = Some ([], Some (errorString "OCI indexer not initialized")) /\
  value (Get Tags Filter go m')
    = Some ([], Some (errorString "OCI indexer not initialized")).
Proof.
  intros H. split.
  - rewrite Get_not_initialized by reflexivity. reflexivity.
  - destruct (Init_outcome ParseReference {| self := NewIndexer o; sink := log |})
      as (e1 & m1 & Hrun & Hself).
    rewrite Hrun in H. injection H as -> ->.
    rewrite Get_not_initialized by (rewrite Hself; reflexivity). reflexivity.
Qed.

Lemma Get_after_failed_Init_witness :
  value (Get scenarioA unit None {| self := NewIndexer missingRegistry; sink := [] |})
    = Some ([], Some (errorString "OCI indexer not initialized")) /\
  value (Get scenarioA unit None
           (after (Init exampleParseReference
                     {| self := NewIndexer missingRegistry; sink := [] |})))
    = Some ([], Some (errorString "OCI indexer not initialized")).
Proof.
  apply (Get_after_failed_Init exampleParseReference scenarioA unit None
           missingRegistry [] (errorString "OCI registry URL is required")).
  reflexivity.
Defined.

(** ** The initial implementation and the present one *)

(** X15: the Init of the initial implementation fails exactly when the
    registry or the repository is empty; it logs the success message
    exactly when it does not fail. *)
Theorem initial_Init_fails_iff (i : initial.Indexer) (log : list zap.Entry) :
  ((exists e : error, fst (initial.Init i log) = Some e) <->
   Registry (initial.opts i) = "" \/ Repository (initial.opts i) = "") /\
  (fst (initial.Init i log) = None <->
   exists entries : list zap.Entry,
     snd (initial.Init i log)
       = (log ++ entries ++ [zap.Info "OCI indexer initialized successfully" []])%list).
Proof.
  unfold initial.Init.
  destruct (Registry (initial.opts i) =? "") eqn:Er;
    [|destruct (Repository (initial.opts i) =? "") eqn:Ep]; cbn [fst snd].
  - apply String.eqb_eq in Er. split.
    + split; [auto | eauto].
    + split; [discriminate|]. intros (entries & H).
      apply app_inv_head in H. apply (f_equal (@rev zap.Entry)) in H.
      rewrite rev_app_distr in H. simpl in H. discriminate.
  - apply String.eqb_neq in Er. apply String.eqb_eq in Ep. split.
    + split; [auto | eauto].
    + split; [discriminate|]. intros (entries & H).
      apply app_inv_head in H. apply (f_equal (@rev zap.Entry)) in H.
      rewrite rev_app_distr in H. simpl in H. discriminate.
  - apply String.eqb_neq in Er, Ep. split.
    + split; [intros (e & H); discriminate | tauto].
    + split; [|reflexivity]. intros _. eexists [_].
      rewrite <- app_assoc. reflexivity.
Qed.

(** X16: when the Init of the initial implementation fails, the present
    Init fails on the same configuration with the same error and the same
    log, whatever the reference parser. *)
Theorem Init_fails_as_initial
        (ParseReference : string -> registry.Reference + error) (m : Machine)
        (e : error) :
  fst (initial.Init {| initial.opts := opts (self m) |} (sink m)) = Some e ->
  Init ParseReference m =
    Returned (Some e)
      {| self := self m;
         sink := snd (initial.Init {| initial.opts := opts (self m) |} (sink m)) |}.
Proof.
  unfold initial.Init. cbn [initial.opts].
  destruct (Registry (opts (self m)) =? "") eqn:Er;
    [|destruct (Repository (opts (self m)) =? "") eqn:Ep]; cbn [fst snd]; intros H.
  - injection H as <-. apply String.eqb_eq in Er.
    apply (Init_missing_registry ParseReference m Er).
  - injection H as <-. apply String.eqb_neq in Er. apply String.eqb_eq in Ep.
    apply (Init_missing_repository ParseReference m Er Ep).
  - discriminate.
Qed.

Lemma Init_fails_as_initial_witness :
  Init exampleParseReference {| self := NewIndexer missingRegistry; sink := [] |} =
    Returned (Some (errorString "OCI registry URL is required"))
      {| self := self {| self := NewIndexer missingRegistry; sink := [] |};
         sink := snd (initial.Init
                        {| initial.opts :=
                             opts (self {| self := NewIndexer missingRegistry;
                                           sink := [] |}) |}
                        (sink {| self := NewIndexer missingRegistry; sink := [] |})) |}.
Proof.
  apply (Init_fails_as_initial exampleParseReference
           {| self := NewIndexer missingRegistry; sink := [] |}
           (errorString "OCI registry URL is required")).
  reflexivity.
Defined.

(** X17: on an initialized indexer whose enumeration fails or gives no tag,
    the present Get returns what the Get of the initial implementation
    returns for the same options: the mock package alone and no error. *)
Theorem Get_falls_back_to_initial
        (Tags : remote.Repository -> list string * option error) (Filter : Type)
        (o : option (packages.GetOptions Filter)) (m : Machine)
        (r : remote.Repository) :
  repo (self m) = Some r ->
  fst (Tags r) = [] \/ snd (Tags r) <> None ->
  value (Get Tags Filter o m)
    = Some (fst (initial.Get {| initial.opts := opts (self m) |} o (sink m))).
Proof.
  intros Hrepo H. destruct (Tags r) as [tags [err|]] eqn:HT.
  - rewrite (Get_tags_failed Tags Filter o m r tags err Hrepo HT). reflexivity.
  - cbn [fst snd] in H. destruct H as [->|H]; [|contradiction].
    destruct (Get_tags_listed Tags Filter o m r [] Hrepo HT)
      as (pkgs & log & Hall & ->).
    inversion Hall; subst. reflexivity.
Qed.

Lemma Get_falls_back_to_initial_witness :
  value (Get unreachable unit None testReady)
    = Some (fst (initial.Get {| initial.opts := opts (self testReady) |}
                   (@None (packages.GetOptions unit)) (sink testReady))).
Proof.
  eapply (Get_falls_back_to_initial unreachable unit None testReady).
  - reflexivity.
  - right. discriminate.
Defined.
